(** * The "maintenance" check (fp_016) of the OBO dashboard

    A shallow embedding of [util/principles/fp_016.py] and the properties
    of its three entry points [is_maintained], [big_is_maintained] and
    [check_version_iri].

    Python values are modelled as follows.
    - A [str] is a list of characters, taken from the 256 of [ascii];
      [vpat] tells apart only the characters of its literals, the
      digits [0-9] and the line break.
    - A naive [datetime] is its number of microseconds since
      [datetime.min] (0001-01-01T00:00:00); comparison and [timedelta]
      arithmetic of Python are exact on that count.
    - [re.search] is a backtracking matcher with greedy repetition.
    - A raised exception is the [Raised] outcome of a computation.
    - [datetime.datetime.now()] reads a wall clock that is part of the
      world a computation runs in; each reading advances the world. *)

From Stdlib Require Import List Ascii String ZArith Lia Bool.
Import ListNotations.

Set Implicit Arguments.

Local Open Scope list_scope.

(** ** Strings *)

Definition str := list ascii.

Definition lit (s : string) : str := list_ascii_of_string s.

Definition newline : ascii := "010"%char.

(** ** Regular expressions, as far as [vpat] needs them *)

Module Re.

(** A character class: [.] (anything but a line break) or [[lo-hi]]. *)
Inductive cclass := Dot | Range (lo hi : ascii).

Definition in_class (c : cclass) (a : ascii) : bool :=
  match c with
  | Dot => negb (Ascii.eqb a newline)
  | Range lo hi =>
      (nat_of_ascii lo <=? nat_of_ascii a)%nat
      && (nat_of_ascii a <=? nat_of_ascii hi)%nat
  end.

(** Group-free pieces: a literal, [c*] (greedy) and [c{n}]. *)
Inductive simple :=
| Lit (s : str)
| Star (c : cclass)
| Rep (n : nat) (c : cclass).

(** A pattern is a sequence of pieces and capture groups [( ... )]. *)
Inductive atom :=
| Plain (x : simple)
| Group (xs : list simple).

Section Matcher.
Context {R : Type}.

(** Each matcher consumes a prefix of [s] and hands the rest to the
    continuation [k]; [None] makes the caller backtrack. *)
Fixpoint m_lit (p s : str) (k : str -> option R) : option R :=
  match p, s with
  | [], _ => k s
  | a :: p', b :: s' => if Ascii.eqb a b then m_lit p' s' k else None
  | _ :: _, [] => None
  end.

(** Greedy: the longest run is tried first, shorter ones after it. *)
Fixpoint m_star (c : cclass) (s : str) (k : str -> option R) : option R :=
  match s with
  | a :: s' =>
      if in_class c a then
        match m_star c s' k with
        | Some r => Some r
        | None => k s
        end
      else k s
  | [] => k s
  end.

Fixpoint m_rep (n : nat) (c : cclass) (s : str) (k : str -> option R)
  : option R :=
  match n with
  | O => k s
  | S n' =>
      match s with
      | a :: s' => if in_class c a then m_rep n' c s' k else None
      | [] => None
      end
  end.

Definition m_simple (x : simple) : str -> (str -> option R) -> option R :=
  match x with
  | Lit p => m_lit p
  | Star c => m_star c
  | Rep n c => m_rep n c
  end.

Fixpoint m_seq (xs : list simple) (s : str) (k : str -> option R)
  : option R :=
  match xs with
  | [] => k s
  | x :: xs' => m_simple x s (fun s' => m_seq xs' s' k)
  end.
End Matcher.

(** Match at the head of [s]; the result lists the groups' captures. *)
Fixpoint m_atoms (p : list atom) (s : str) : option (list str) :=
  match p with
  | [] => Some []
  | Plain x :: p' => m_simple x s (fun s' => m_atoms p' s')
  | Group xs :: p' =>
      m_seq xs s
        (fun s' =>
           option_map (cons (firstn (List.length s - List.length s') s))
                      (m_atoms p' s'))
  end.

(** [re.search]: the leftmost position at which the pattern matches. *)
Fixpoint search (p : list atom) (s : str) : option (list str) :=
  match m_atoms p s with
  | Some g => Some g
  | None =>
      match s with
      | [] => None
      | _ :: s' => search p s'
      end
  end.

End Re.

(** ** Exceptions and outcomes *)

Inductive exn := ValueError | IndexError | OverflowError.

Inductive outcome (A : Type) :=
| Returned (a : A)
| Raised (e : exn).

Arguments Raised {A} e.

(** ** Dates *)

Definition datetime := Z.

Definition us_per_day : Z := 86400 * 1000000.

(** [timedelta(days=n)], in microseconds. *)
Definition timedelta (days : Z) : Z := (days * us_per_day)%Z.

Definition MINYEAR : Z := 1.
Definition MAXYEAR : Z := 9999.

Definition is_leap (y : Z) : bool :=
  ((y mod 4 =? 0) && (negb (y mod 100 =? 0) || (y mod 400 =? 0)))%Z.

Definition days_in_month (y m : Z) : Z :=
  if ((m =? 2) && is_leap y)%Z then 29%Z
  else nth (Z.to_nat m) [0; 31; 28; 31; 30; 31; 30; 31; 31; 30; 31; 30; 31]%Z 0%Z.

Definition days_before_year (y : Z) : Z :=
  (let y1 := y - 1 in y1 * 365 + y1 / 4 - y1 / 100 + y1 / 400)%Z.

Definition days_before_month (y m : Z) : Z :=
  (nth (Z.to_nat m) [0; 0; 31; 59; 90; 120; 151; 181; 212; 243; 273; 304; 334] 0
   + if (2 <? m) && is_leap y then 1 else 0)%Z.

(** Proleptic Gregorian ordinal; 0001-01-01 is day 1. *)
Definition ymd2ord (y m d : Z) : Z :=
  (days_before_year y + days_before_month y m + d)%Z.

Definition datetime_max : datetime :=
  (ymd2ord MAXYEAR 12 31 * us_per_day - 1)%Z.

(** [datetime.datetime(y, m, d)]: midnight of a date that must exist. *)
Definition datetime_new (y m d : Z) : outcome datetime :=
  if negb ((MINYEAR <=? y) && (y <=? MAXYEAR))%Z then Raised ValueError
  else if negb ((1 <=? m) && (m <=? 12))%Z then Raised ValueError
  else if negb ((1 <=? d) && (d <=? days_in_month y m))%Z then Raised ValueError
  else Returned ((ymd2ord y m d - 1) * us_per_day)%Z.

(** [t - delta] on a [datetime]; the result must be a [datetime]. *)
Definition datetime_sub (t : datetime) (delta : Z) : outcome datetime :=
  let r := (t - delta)%Z in
  if ((0 <=? r) && (r <=? datetime_max))%Z then Returned r
  else Raised OverflowError.

(** ** Built-ins on strings *)

Definition is_digit (a : ascii) : bool :=
  Re.in_class (Re.Range "0" "9") a.

Definition digit_value (a : ascii) : Z :=
  (Z.of_nat (nat_of_ascii a) - 48)%Z.

Fixpoint digits_value (acc : Z) (s : str) : option Z :=
  match s with
  | [] => Some acc
  | a :: s' =>
      if is_digit a then digits_value (10 * acc + digit_value a)%Z s'
      else None
  end.

(** [int(s)] for a string of decimal digits.  Signs, blanks and
    underscores, which Python also reads, do not occur in what [vpat]
    captures and are rejected here. *)
Definition int (s : str) : outcome Z :=
  match s with
  | [] => Raised ValueError
  | _ :: _ =>
      match digits_value 0 s with
      | Some v => Returned v
      | None => Raised ValueError
      end
  end.

(** [s.split(sep)] for a separator of one character. *)
Fixpoint split (sep : ascii) (s : str) : list str :=
  match s with
  | [] => [[]]
  | a :: s' =>
      if Ascii.eqb a sep then [] :: split sep s'
      else
        match split sep s' with
        | h :: t => (a :: h) :: t
        | [] => [[a]]
        end
  end.

(** [l[i]] *)
Definition getitem {A : Type} (l : list A) (i : nat) : outcome A :=
  match nth_error l i with
  | Some x => Returned x
  | None => Raised IndexError
  end.

(** [m.group(i)] for [i >= 1] on the captures of a match. *)
Definition group (m : list str) (i : nat) : outcome str :=
  getitem m (i - 1).

(** ** Computations

    A computation runs in a world that holds the wall clock: [wall w n]
    is what the [n]-th reading of the clock gives, and [ticks w] counts
    the readings made so far. *)

Record world := World { wall : nat -> datetime; ticks : nat }.

Definition M (A : Type) : Type := world -> outcome (A * world).

Definition ret {A : Type} (a : A) : M A :=
  fun w => Returned (a, w).

Definition bind {A B : Type} (m : M A) (k : A -> M B) : M B :=
  fun w =>
    match m w with
    | Returned (a, w') => k a w'
    | Raised e => Raised e
    end.

Definition lift {A : Type} (o : outcome A) : M A :=
  fun w =>
    match o with
    | Returned a => Returned (a, w)
    | Raised e => Raised e
    end.

Notation "x <- m ;; k" := (bind m (fun x => k))
  (at level 61, m at next level, right associativity).

(** [datetime.datetime.now()] *)
Definition now : M datetime :=
  fun w => Returned (wall w (ticks w), World (wall w) (S (ticks w))).

(** What a caller sees of a finished computation. *)
Definition value {A : Type} (o : outcome (A * world)) : outcome A :=
  match o with
  | Returned (a, _) => Returned a
  | Raised e => Raised e
  end.

(** A world whose clock stands still at [t]. *)
Definition steady (t : datetime) (n : nat) : world :=
  World (fun _ => t) n.

(** ** The OWL API objects [is_maintained] reads *)

Record IRI := { toString : str }.

(** [getVersionIRI] is an [Optional<IRI>]; [orNull] turns it into an
    [IRI] or [None]. *)
Record OWLOntologyID := { getVersionIRI : option IRI }.

Record OWLOntology := { getOntologyID : OWLOntologyID }.

Definition orNull {A : Type} (o : option A) : option A := o.

(** ** The module [fp_016] *)

Definition digit : Re.cclass := Re.Range "0" "9".

(** [http:\/\/purl\.obolibrary\.org/obo/.*/([0-9]{4}-[0-9]{2}-[0-9]{2})/.*] *)
Definition vpat : list Re.atom :=
  [ Re.Plain (Re.Lit (lit "http://purl.obolibrary.org/obo/"));
    Re.Plain (Re.Star Re.Dot);
    Re.Plain (Re.Lit (lit "/"));
    Re.Group [ Re.Rep 4 digit; Re.Lit (lit "-");
               Re.Rep 2 digit; Re.Lit (lit "-");
               Re.Rep 2 digit ];
    Re.Plain (Re.Lit (lit "/"));
    Re.Plain (Re.Star Re.Dot) ].

(** ['last version ({0}) is over {1} year(s) old'.format(a0, a1)] *)
Definition old_version_msg (a0 a1 : str) : str :=
  lit "last version (" ++ a0 ++ lit ") is over " ++ a1 ++ lit " year(s) old".

Section FP016.

(** [dash_utils.format_msg] and [dash_utils.get_version_iri] belong to
    another module of the dashboard.  The first formats a tag and a list
    of messages; the second scans the file at a path and gives the
    version IRI, an empty string, or [None]. *)
Variable format_msg : str -> list str -> str.
Variable get_version_iri : str -> option str.

(** The branch [if search:] of [check_version_iri]. *)
Definition check_match (search : list str) : M str :=
  date <- lift (group search 1) ;;
  let splits := split "-" date in
  s0 <- lift (getitem splits 0) ;;
  y <- lift (int s0) ;;
  s1 <- lift (getitem splits 1) ;;
  m <- lift (int s1) ;;
  s2 <- lift (getitem splits 2) ;;
  d <- lift (int s2) ;;
  version_date <- lift (datetime_new y m d) ;;
  t3 <- now ;;
  three_years_ago <- lift (datetime_sub t3 (timedelta (3 * 365))) ;;
  if (version_date <? three_years_ago)%Z then
    ret (format_msg (lit "ERROR") [old_version_msg date (lit "three")])
  else
    t2 <- now ;;
    two_years_ago <- lift (datetime_sub t2 (timedelta (2 * 365))) ;;
    if (version_date <? two_years_ago)%Z then
      ret (format_msg (lit "WARN") [old_version_msg date (lit "two")])
    else
      t1 <- now ;;
      one_year_ago <- lift (datetime_sub t1 (timedelta 365)) ;;
      if (version_date <? one_year_ago)%Z then
        ret (format_msg (lit "INFO") [old_version_msg date (lit "one")])
      else
        ret (lit "PASS").

Definition check_version_iri (version_iri : str) : M str :=
  match Re.search vpat version_iri with
  | Some search => check_match search
  | None =>
      ret (format_msg (lit "INFO")
             [lit "version IRI does not have date information"])
  end.

(** In [if version_iri:] an [IRI] object counts as true and [None] as
    false. *)
Definition is_maintained (ontology : option OWLOntology) : M str :=
  match ontology with
  | None => ret (format_msg (lit "INFO") [lit "unable to load ontology"])
  | Some o =>
      match orNull (getVersionIRI (getOntologyID o)) with
      | Some version_iri => check_version_iri (toString version_iri)
      | None =>
          ret (format_msg (lit "INFO")
                 [lit "missing version IRI to check date"])
      end
  end.

Definition big_is_maintained (file : str) : M str :=
  match get_version_iri file with
  | Some ((_ :: _) as version_iri) => check_version_iri version_iri
  | Some [] =>
      ret (format_msg (lit "INFO") [lit "missing version IRI to check date"])
  | None =>
      ret (format_msg (lit "INFO") [lit "unable to parse ontology"])
  end.

End FP016.

(** ** Vocabulary of the properties *)

Definition slash : ascii := "/"%char.
Definition hyphen : ascii := "-"%char.

(** The literal head of [vpat]. *)
Definition prefix : str := lit "http://purl.obolibrary.org/obo/".

(** What follows the first [.*] in [vpat]. *)
Definition vpat_tail : list Re.atom := tl (tl vpat).

(** A text without line break, which is what [.*] can run over. *)
Definition line (u : str) : Prop := forallb (Re.in_class Re.Dot) u = true.

Definition all_digits (u : str) : bool := forallb is_digit u.

(** [YYYY-MM-DD]: four digits, two digits, two digits, hyphens between. *)
Definition date_shaped (d : str) : bool :=
  match d with
  | [y1; y2; y3; y4; h1; m1; m2; h2; d1; d2] =>
      all_digits [y1; y2; y3; y4] && Ascii.eqb h1 hyphen
      && all_digits [m1; m2] && Ascii.eqb h2 hyphen
      && all_digits [d1; d2]
  | _ => false
  end.

(** [t] starts with a date between two slashes. *)
Definition date_segment_at (t : str) : Prop :=
  exists d rest, t = slash :: d ++ slash :: rest /\ date_shaped d = true.

(** [s] contains, somewhere, the head of [vpat], a text without line
    break, and a date between two slashes. *)
Definition vpat_occurs (s : str) : Prop :=
  exists pre seg d rest,
    s = pre ++ prefix ++ seg ++ slash :: d ++ slash :: rest
    /\ line seg /\ date_shaped d = true.

(** The date [re.search(vpat, s).group(1)] gives, when there is a match. *)
Definition captured (s : str) : option str :=
  match Re.search vpat s with
  | Some (d :: _) => Some d
  | _ => None
  end.

(** [d] is the last date of its line: no later position that [.*] can
    reach from the slash before [d] starts a date segment. *)
Definition last_on_line (d rest : str) : Prop :=
  forall v t, slash :: d ++ slash :: rest = v ++ t -> v <> [] -> line v ->
              ~ date_segment_at t.

(** Lines 88 to 90 of [check_version_iri] on their own: the captured
    text split at the hyphens, read as three integers, made a date. *)
Definition obind {A B : Type} (o : outcome A) (k : A -> outcome B)
  : outcome B :=
  match o with
  | Returned a => k a
  | Raised e => Raised e
  end.

Definition version_date_of (date : str) : outcome datetime :=
  let splits := split "-" date in
  obind (getitem splits 0) (fun s0 => obind (int s0) (fun y =>
  obind (getitem splits 1) (fun s1 => obind (int s1) (fun m =>
  obind (getitem splits 2) (fun s2 => obind (int s2) (fun d =>
  datetime_new y m d)))))).

(** The clock readings under which no subtraction of lines 93 to 107
    leaves the range of [datetime]. *)
Definition clock_in_range (t : datetime) : Prop :=
  (timedelta (3 * 365) <= t <= datetime_max)%Z.

(** Severities, in ascending order of concern. *)
Inductive severity := PASS | INFO | WARN | ERROR.

Definition rank (v : severity) : nat :=
  match v with PASS => 0 | INFO => 1 | WARN => 2 | ERROR => 3 end.

Definition tag (v : severity) : str :=
  match v with
  | PASS => lit "PASS"
  | INFO => lit "INFO"
  | WARN => lit "WARN"
  | ERROR => lit "ERROR"
  end.

(** The words [check_version_iri] puts in [old_version_msg]. *)
Definition years_word (v : severity) : str :=
  match v with
  | ERROR => lit "three"
  | WARN => lit "two"
  | _ => lit "one"
  end.

Section Results.
Variable format_msg : str -> list str -> str.

(** A result of severity [v]: ['PASS'] itself, or the tag of [v]
    formatted with one message. *)
Definition has_severity (r : str) (v : severity) : Prop :=
  match v with
  | PASS => r = lit "PASS"
  | _ => exists msg, r = format_msg (tag v) [msg]
  end.


(** The staleness message of severity [v] about [date]. *)
Definition stale (v : severity) (date : str) : str :=
  format_msg (tag v) [old_version_msg date (years_word v)].

Definition no_date_msg : str :=
  format_msg (lit "INFO") [lit "version IRI does not have date information"].


(** What lines 92 to 113 give for a date [vd] when the clock reads [t]. *)
Definition verdict (date : str) (vd t : datetime) : str :=
  if (vd <? t - timedelta (3 * 365))%Z then stale ERROR date
  else if (vd <? t - timedelta (2 * 365))%Z then stale WARN date
  else if (vd <? t - timedelta 365)%Z then stale INFO date
  else lit "PASS".

End Results.

(** The severity lines 92 to 113 choose for a date [vd] when the clock
    reads [t]. *)
Definition severity_at (vd t : datetime) : severity :=
  if (vd <? t - timedelta (3 * 365))%Z then ERROR
  else if (vd <? t - timedelta (2 * 365))%Z then WARN
  else if (vd <? t - timedelta 365)%Z then INFO
  else PASS.

(** The reading of [vpat] with a first [.*] that is not greedy: of the
    date segments that follow the head on its line, the leftmost is the
    one captured. *)
Definition leftmost_captured (s : str) : Prop :=
  forall seg d rest,
    s = prefix ++ seg ++ slash :: d ++ slash :: rest ->
    line seg -> date_shaped d = true ->
    (forall u t, seg ++ slash :: d ++ slash :: rest = u ++ t ->
                 (List.length u < List.length seg)%nat ->
                 ~ date_segment_at t) ->
    captured s = Some d.

(** Executable forms of [date_segment_at] and [last_on_line]. *)
Definition date_segment_atb (t : str) : bool :=
  match t with
  | a :: t' =>
      Ascii.eqb a slash && date_shaped (firstn 10 t')
      && match skipn 10 t' with
         | b :: _ => Ascii.eqb b slash
         | [] => false
         end
  | [] => false
  end.

Fixpoint no_later_date (t : str) : bool :=
  match t with
  | [] => true
  | a :: t' =>
      if Re.in_class Re.Dot a
      then negb (date_segment_atb t') && no_later_date t'
      else true
  end.

(** The number a string of digits denotes. *)
Definition number (u : str) : Z :=
  fold_left (fun acc a => (10 * acc + digit_value a)%Z) u 0%Z.

(** Midnight of a date, as [datetime_new] gives it for a date that
    exists. *)
Definition midnight (y m d : Z) : datetime :=
  ((ymd2ord y m d - 1) * us_per_day)%Z.

(** A formatter, a scanner and objects to run the entry points on
    examples. *)
Definition join_msg (t : str) (msgs : list str) : str :=
  t ++ lit " " ++ List.concat msgs.

Definition sample_iri : str :=
  lit "http://purl.obolibrary.org/obo/go/2019-06-01/go.owl".

Definition scan_sample (file : str) : option str :=
  match file with
  | [] => None
  | [_] => Some []
  | _ => Some sample_iri
  end.

Definition ontology_of (v : option str) : OWLOntology :=
  {| getOntologyID :=
       {| getVersionIRI := option_map (fun s => {| toString := s |}) v |} |}.

(** ** Vocabulary of further properties *)

(** Every reading of the clock of [w] is in range. *)
Definition clock_ok (w : world) : Prop :=
  forall n, clock_in_range (wall w n).

(** A clock that shows [t0], then [t0 + step], and [t0 + 2 * step]
    from then on. *)
Definition ticking (t0 step : datetime) : world :=
  World (fun n => (t0 + Z.of_nat (Nat.min 2 n) * step)%Z) 0.

(** How often lines 92 to 113 read the clock: the second reading is made
    only when the first test fails, the third only when the second
    fails. *)
Definition readings (vd t3 t2 : datetime) : nat :=
  if (vd <? t3 - timedelta (3 * 365))%Z then 1
  else if (vd <? t2 - timedelta (2 * 365))%Z then 2
  else 3.

Section Results3.
Variable format_msg : str -> list str -> str.

(** What lines 92 to 113 give for a date [vd] when the three readings
    of the clock are [t3], [t2] and [t1], in that order. *)
Definition verdict3 (date : str) (vd t3 t2 t1 : datetime) : str :=
  if (vd <? t3 - timedelta (3 * 365))%Z then stale format_msg ERROR date
  else if (vd <? t2 - timedelta (2 * 365))%Z then stale format_msg WARN date
  else if (vd <? t1 - timedelta 365)%Z then stale format_msg INFO date
  else lit "PASS".

End Results3.

(** [p] occurs in [s]. *)
Definition occurs (p s : str) : Prop :=
  exists u v, s = u ++ p ++ v.

Fixpoint starts_with (p s : str) : bool :=
  match p, s with
  | [], _ => true
  | a :: p', b :: s' => Ascii.eqb a b && starts_with p' s'
  | _ :: _, [] => false
  end.

Fixpoint occursb (p s : str) : bool :=
  starts_with p s
  || match s with
     | [] => false
     | _ :: s' => occursb p s'
     end.

(** No date between slashes starts at index [i] of [s] or later. *)
Definition no_date_segment_from (i : nat) (s : str) : Prop :=
  forall u v, s = u ++ v -> (i <= List.length u)%nat -> ~ date_segment_at v.

Fixpoint has_date_segment (t : str) : bool :=
  date_segment_atb t
  || match t with
     | [] => false
     | _ :: t' => has_date_segment t'
     end.

(** The year, month and day that the digits of a date-shaped text
    denote. *)
Definition ymd_of (d : str) : Z * Z * Z :=
  (number (firstn 4 d), number (firstn 2 (skipn 5 d)), number (skipn 8 d)).

(** The order of the calendar: by year, then month, then day. *)
Definition ymd_le (a b : Z * Z * Z) : Prop :=
  let '(y1, m1, d1) := a in
  let '(y2, m2, d2) := b in
  (y1 < y2 \/ (y1 = y2 /\ (m1 < m2 \/ (m1 = m2 /\ d1 <= d2))))%Z.

(** ** The matcher *)

Unset Implicit Arguments.

Section MatcherFacts.
Context {R : Type}.
Implicit Types (k : str -> option R) (c : Re.cclass).

Lemma m_lit_app p t k : Re.m_lit p (p ++ t) k = k t.
Proof.
  induction p as [|a p IH]; simpl; [reflexivity|].
  now rewrite Ascii.eqb_refl.
Qed.

Lemma m_lit_inv p s k r :
  Re.m_lit p s k = Some r -> exists t, s = p ++ t /\ k t = Some r.
Proof.
  revert s; induction p as [|a p IH]; intros s H; simpl in H.
  - now exists s.
  - destruct s as [|b s]; [discriminate|].
    destruct (Ascii.eqb a b) eqn:E; [|discriminate].
    apply Ascii.eqb_eq in E; subst b.
    destruct (IH _ H) as (t & -> & Hk). now exists t.
Qed.

Lemma m_rep_app n c u t k :
  List.length u = n -> forallb (Re.in_class c) u = true ->
  Re.m_rep n c (u ++ t) k = k t.
Proof.
  revert n; induction u as [|a u IH]; intros n <- Hu; simpl in *.
  - reflexivity.
  - apply andb_prop in Hu as [-> Hu]. now apply IH.
Qed.

Lemma m_rep_inv n c s k r :
  Re.m_rep n c s k = Some r ->
  exists u t, s = u ++ t /\ List.length u = n
              /\ forallb (Re.in_class c) u = true /\ k t = Some r.
Proof.
  revert s; induction n as [|n IH]; intros s H; simpl in H.
  - now exists [], s.
  - destruct s as [|a s]; [discriminate|].
    destruct (Re.in_class c a) eqn:E; [|discriminate].
    destruct (IH _ H) as (u & t & -> & L & D & Hk).
    exists (a :: u), t; simpl. now rewrite E, D, L.
Qed.

Lemma m_star_inv c s k r :
  Re.m_star c s k = Some r ->
  exists u t, s = u ++ t /\ forallb (Re.in_class c) u = true /\ k t = Some r.
Proof.
  induction s as [|a s IH]; simpl; intros H.
  - now exists [], [].
  - destruct (Re.in_class c a) eqn:E.
    + destruct (Re.m_star c s k) as [r'|] eqn:Es.
      * destruct (IH H) as (u & t & -> & D & Hk).
        exists (a :: u), t; simpl. now rewrite E, D.
      * now exists [], (a :: s).
    + now exists [], (a :: s).
Qed.

(** A run that the continuation accepts makes the star succeed. *)
Lemma m_star_complete c u t k r :
  forallb (Re.in_class c) u = true -> k t = Some r ->
  exists r', Re.m_star c (u ++ t) k = Some r'.
Proof.
  induction u as [|a u IH]; simpl; intros Hu Hk.
  - destruct t as [|b t]; simpl; [eauto|].
    destruct (Re.in_class c b); [|eauto].
    destruct (Re.m_star c t k); eauto.
  - apply andb_prop in Hu as [-> Hu].
    destruct (IH Hu Hk) as (r' & ->). eauto.
Qed.

(** The star gives what the longest accepted run gives. *)
Lemma m_star_greedy c u t k r :
  forallb (Re.in_class c) u = true -> k t = Some r ->
  (forall v t', t = v ++ t' -> v <> [] ->
                forallb (Re.in_class c) v = true -> k t' = None) ->
  Re.m_star c (u ++ t) k = Some r.
Proof.
  intros Hu Hk Hlast.
  assert (Ht : Re.m_star c t k = Some r).
  { destruct (Re.m_star c t k) as [r'|] eqn:Es.
    - destruct (m_star_inv _ _ _ _ Es) as (v & t' & -> & Dv & Hk').
      destruct v as [|b v]; [simpl in Hk; congruence|].
      rewrite (Hlast (b :: v) t' eq_refl) in Hk'; [discriminate| |assumption].
      discriminate.
    - destruct t as [|b t]; simpl in Es; [congruence|].
      destruct (Re.in_class c b); [|congruence].
      destruct (Re.m_star c t k); congruence. }
  clear Hk Hlast.
  induction u as [|a u IH]; simpl; [assumption|].
  simpl in Hu; apply andb_prop in Hu as [-> Hu].
  now rewrite (IH Hu).
Qed.

Lemma m_star_const c s k r :
  (forall t, k t = Some r) -> Re.m_star c s k = Some r.
Proof.
  intros Hk; induction s as [|a s IH]; simpl; [apply Hk|].
  destruct (Re.in_class c a); [now rewrite IH | apply Hk].
Qed.

End MatcherFacts.

(** ** The pattern [vpat] *)

Lemma firstn_length_sub (u t : str) :
  firstn (List.length (u ++ t) - List.length t) (u ++ t) = u.
Proof.
  rewrite length_app, Nat.add_sub.
  rewrite firstn_app, Nat.sub_diag, firstn_all. simpl. apply app_nil_r.
Qed.

Lemma date_shaped_parts (y m dd : str) :
  List.length y = 4 -> List.length m = 2 -> List.length dd = 2 ->
  all_digits y = true -> all_digits m = true -> all_digits dd = true ->
  date_shaped (y ++ hyphen :: m ++ hyphen :: dd) = true.
Proof.
  intros Ly Lm Ld Dy Dm Dd.
  destruct y as [|y1 [|y2 [|y3 [|y4 [|]]]]]; try discriminate.
  destruct m as [|m1 [|m2 [|]]]; try discriminate.
  destruct dd as [|d1 [|d2 [|]]]; try discriminate.
  cbn [app date_shaped]. now rewrite Dy, Dm, Dd.
Qed.

Lemma date_shaped_inv (d : str) :
  date_shaped d = true ->
  exists y1 y2 y3 y4 m1 m2 d1 d2,
    d = [y1; y2; y3; y4; hyphen; m1; m2; hyphen; d1; d2]
    /\ all_digits [y1; y2; y3; y4] = true
    /\ all_digits [m1; m2] = true
    /\ all_digits [d1; d2] = true.
Proof.
  intros H.
  do 10 (destruct d as [|? d]; [discriminate|]).
  destruct d; [|discriminate].
  unfold date_shaped in H.
  apply andb_prop in H as [H Dd].
  apply andb_prop in H as [H E2].
  apply andb_prop in H as [H Dm].
  apply andb_prop in H as [Dy E1].
  apply Ascii.eqb_eq in E1, E2; subst.
  do 8 eexists; repeat split; eassumption.
Qed.

Lemma date_shaped_length (d : str) :
  date_shaped d = true -> List.length d = 10.
Proof.
  intros H. destruct (date_shaped_inv _ H) as (?&?&?&?&?&?&?&?&->&_).
  reflexivity.
Qed.

(** [vpat] is its head, the first [.*], and [vpat_tail]. *)
Lemma m_atoms_vpat (s : str) :
  Re.m_atoms vpat s
  = Re.m_lit prefix s
      (fun s1 => Re.m_star Re.Dot s1 (fun s2 => Re.m_atoms vpat_tail s2)).
Proof. reflexivity. Qed.

(** [vpat_tail] matches at a slash, a date and a slash, and captures
    the date. *)
Lemma vpat_tail_match (d rest : str) :
  date_shaped d = true ->
  Re.m_atoms vpat_tail (slash :: d ++ slash :: rest) = Some [d].
Proof.
  intros H. destruct (date_shaped_inv _ H) as (y1&y2&y3&y4&m1&m2&d1&d2&->&Dy&Dm&Dd).
  unfold vpat_tail; cbn [tl vpat Re.m_atoms Re.m_simple Re.m_seq].
  change (slash :: ?x) with (lit "/" ++ x) at 1.
  rewrite m_lit_app.
  change ([y1; y2; y3; y4; hyphen; m1; m2; hyphen; d1; d2] ++ slash :: rest)
    with ([y1; y2; y3; y4] ++ lit "-" ++ [m1; m2] ++ lit "-" ++ [d1; d2]
            ++ lit "/" ++ rest).
  rewrite m_rep_app by (reflexivity || exact Dy).
  rewrite m_lit_app.
  rewrite m_rep_app by (reflexivity || exact Dm).
  rewrite m_lit_app.
  rewrite m_rep_app by (reflexivity || exact Dd).
  rewrite m_lit_app.
  rewrite (m_star_const Re.Dot rest _ []) by reflexivity.
  cbn [option_map]. do 2 f_equal.
  change ([y1; y2; y3; y4] ++ lit "-" ++ [m1; m2] ++ lit "-" ++ [d1; d2]
            ++ lit "/" ++ rest)
    with ([y1; y2; y3; y4; hyphen; m1; m2; hyphen; d1; d2] ++ (slash :: rest)).
  apply firstn_length_sub.
Qed.

Lemma vpat_tail_inv (t : str) (g : list str) :
  Re.m_atoms vpat_tail t = Some g ->
  exists d rest, t = slash :: d ++ slash :: rest
                 /\ date_shaped d = true /\ g = [d].
Proof.
  unfold vpat_tail; cbn [tl vpat Re.m_atoms Re.m_simple Re.m_seq]; intros H.
  apply m_lit_inv in H as (t1 & -> & H).
  apply m_rep_inv in H as (y & t2 & -> & Ly & Dy & H).
  apply m_lit_inv in H as (t3 & -> & H).
  apply m_rep_inv in H as (m & t4 & -> & Lm & Dm & H).
  apply m_lit_inv in H as (t5 & -> & H).
  apply m_rep_inv in H as (dd & t6 & -> & Ld & Dd & H).
  destruct (Re.m_lit (lit "/") t6 _) as [g'|] eqn:E; [|discriminate].
  apply m_lit_inv in E as (rest & -> & E).
  rewrite (m_star_const Re.Dot rest _ []) in E by reflexivity.
  injection E as <-. cbn [option_map] in H. injection H as <-.
  exists (y ++ hyphen :: m ++ hyphen :: dd), rest.
  assert (Eq : y ++ lit "-" ++ m ++ lit "-" ++ dd ++ lit "/" ++ rest
               = (y ++ hyphen :: m ++ hyphen :: dd) ++ slash :: rest).
  { cbn [lit list_ascii_of_string app].
    now rewrite <- !app_assoc, <- !app_comm_cons, <- !app_assoc. }
  change (lit "/" ++ rest) with (slash :: rest) in *.
  split; [now rewrite Eq|].
  split; [now apply date_shaped_parts|].
  f_equal.
  etransitivity; [|apply firstn_length_sub with (t := slash :: rest)].
  now rewrite <- Eq.
Qed.

(** A date segment at [t] is exactly where [vpat_tail] matches. *)
Lemma vpat_tail_none (t : str) :
  ~ date_segment_at t -> Re.m_atoms vpat_tail t = None.
Proof.
  intros H. destruct (Re.m_atoms vpat_tail t) as [g|] eqn:E; [|reflexivity].
  destruct (vpat_tail_inv _ _ E) as (d & rest & -> & Hd & _).
  exfalso; apply H. now exists d, rest.
Qed.

Lemma line_app (u v : str) : line (u ++ v) <-> line u /\ line v.
Proof. unfold line. rewrite forallb_app. apply andb_true_iff. Qed.

Lemma line_skipn (n : nat) (u : str) : line u -> line (skipn n u).
Proof.
  intros H. rewrite <- (firstn_skipn n u) in H.
  now apply line_app in H.
Qed.

Lemma line_prefix : line prefix.
Proof. reflexivity. Qed.

(** A match at the head of [s]: the shape of [s] and the capture. *)
Lemma m_atoms_vpat_inv (s : str) (g : list str) :
  Re.m_atoms vpat s = Some g ->
  exists seg d rest,
    s = prefix ++ seg ++ slash :: d ++ slash :: rest
    /\ line seg /\ date_shaped d = true /\ g = [d].
Proof.
  rewrite m_atoms_vpat; intros H.
  apply m_lit_inv in H as (s1 & -> & H).
  apply m_star_inv in H as (seg & t & -> & Hseg & H).
  apply vpat_tail_inv in H as (d & rest & -> & Hd & ->).
  now exists seg, d, rest.
Qed.

Lemma m_atoms_vpat_complete (seg d rest : str) :
  line seg -> date_shaped d = true ->
  exists g, Re.m_atoms vpat (prefix ++ seg ++ slash :: d ++ slash :: rest)
            = Some g.
Proof.
  intros Hseg Hd. rewrite m_atoms_vpat, m_lit_app.
  apply m_star_complete with (r := [d]); [exact Hseg|].
  now apply vpat_tail_match.
Qed.

Lemma m_atoms_vpat_greedy (seg d rest : str) :
  line seg -> date_shaped d = true -> last_on_line d rest ->
  Re.m_atoms vpat (prefix ++ seg ++ slash :: d ++ slash :: rest) = Some [d].
Proof.
  intros Hseg Hd Hlast. rewrite m_atoms_vpat, m_lit_app.
  apply m_star_greedy; [exact Hseg | now apply vpat_tail_match |].
  intros v t E Hv Lv. apply vpat_tail_none. now apply (Hlast v t).
Qed.

Lemma search_inv (s : str) (g : list str) :
  Re.search vpat s = Some g ->
  exists pre seg d rest,
    s = pre ++ prefix ++ seg ++ slash :: d ++ slash :: rest
    /\ line seg /\ date_shaped d = true /\ g = [d].
Proof.
  induction s as [|a s IH]; cbn [Re.search]; intros H.
  - destruct (Re.m_atoms vpat []) eqn:E; [|discriminate].
    injection H as ->.
    apply m_atoms_vpat_inv in E as (seg & d & rest & E & ?).
    now exists [], seg, d, rest.
  - destruct (Re.m_atoms vpat (a :: s)) eqn:E.
    + injection H as ->.
      apply m_atoms_vpat_inv in E as (seg & d & rest & E & ?).
      now exists [], seg, d, rest.
    + destruct (IH H) as (pre & seg & d & rest & -> & ?).
      now exists (a :: pre), seg, d, rest.
Qed.

Lemma search_head (s : str) (g : list str) :
  Re.m_atoms vpat s = Some g -> Re.search vpat s = Some g.
Proof. intros H. destruct s; cbn [Re.search]; now rewrite H. Qed.

Lemma search_complete (s : str) :
  vpat_occurs s -> exists g, Re.search vpat s = Some g.
Proof.
  intros (pre & seg & d & rest & -> & Hseg & Hd).
  induction pre as [|a pre IH].
  - destruct (m_atoms_vpat_complete seg d rest Hseg Hd) as (g & E).
    exists g. now apply search_head.
  - cbn [app Re.search]. destruct (Re.m_atoms vpat _); eauto.
Qed.

(** [re.search(vpat, s)] is [None] exactly when [s] has no occurrence. *)
Lemma search_none_iff (s : str) :
  Re.search vpat s = None <-> ~ vpat_occurs s.
Proof.
  split.
  - intros E H. destruct (search_complete _ H) as (g & Eg). congruence.
  - intros H. destruct (Re.search vpat s) as [g|] eqn:E; [|reflexivity].
    exfalso; apply H.
    destruct (search_inv _ _ E) as (pre & seg & d & rest & ? & ? & ? & _).
    now exists pre, seg, d, rest.
Qed.

Lemma app_head_eq (p b t x : str) :
  (List.length p <= List.length b)%nat -> b ++ t = p ++ x ->
  b = p ++ skipn (List.length p) b.
Proof.
  revert b; induction p as [|a p IH]; intros b L E; [reflexivity|].
  destruct b as [|a' b]; simpl in *; [lia|].
  injection E as -> E. f_equal. apply IH; [lia | assumption].
Qed.

(** With no line break before it, the last date of the line is the one
    captured, wherever the match starts. *)
Lemma search_greedy (pre seg d rest : str) :
  line pre -> line seg -> date_shaped d = true -> last_on_line d rest ->
  Re.search vpat (pre ++ prefix ++ seg ++ slash :: d ++ slash :: rest)
  = Some [d].
Proof.
  intros Hpre Hseg Hd Hlast.
  induction pre as [|a pre IH].
  - apply search_head. now apply m_atoms_vpat_greedy.
  - assert (Hpre' : line pre) by (now apply (line_app [a] pre) in Hpre).
    cbn [app Re.search].
    destruct (Re.m_atoms vpat _) as [g|] eqn:E; [|now apply IH].
    rewrite <- E. clear IH.
    destruct (m_atoms_vpat_inv _ _ E) as (seg' & d' & rest' & Es & _).
    set (body := (a :: pre) ++ prefix ++ seg).
    assert (Hbody : line body).
    { unfold body. apply line_app; split; [assumption|].
      apply line_app; split; [apply line_prefix | assumption]. }
    assert (Elen : (List.length prefix <= List.length body)%nat).
    { unfold body. rewrite !length_app. lia. }
    assert (Eb : a :: pre ++ prefix ++ seg ++ slash :: d ++ slash :: rest
                 = body ++ slash :: d ++ slash :: rest).
    { unfold body. now rewrite <- !app_assoc. }
    rewrite Eb in *.
    assert (Ep : body ++ slash :: d ++ slash :: rest
                 = prefix ++ skipn (List.length prefix) body
                     ++ slash :: d ++ slash :: rest).
    { rewrite (app_head_eq _ _ _ _ Elen Es) at 1. now rewrite <- app_assoc. }
    rewrite Ep. apply m_atoms_vpat_greedy; try assumption.
    now apply line_skipn.
Qed.

Lemma date_segment_atb_complete (t : str) :
  date_segment_at t -> date_segment_atb t = true.
Proof.
  intros (d & rest & -> & Hd).
  destruct (date_shaped_inv _ Hd) as (?&?&?&?&?&?&?&?&E&_).
  rewrite E in Hd |- *.
  cbn [date_segment_atb app firstn skipn].
  now rewrite Hd, Ascii.eqb_refl.
Qed.

Lemma no_later_date_sound (d rest : str) :
  no_later_date (slash :: d ++ slash :: rest) = true -> last_on_line d rest.
Proof.
  unfold last_on_line. generalize (slash :: d ++ slash :: rest) as all.
  intros all H v; revert all H.
  induction v as [|a v IH]; intros all H t E Hv Lv; [congruence|].
  subst all. cbn [app no_later_date] in H.
  apply (line_app [a] v) in Lv as [La Lv].
  unfold line in La; cbn [forallb] in La; rewrite andb_true_r in La.
  rewrite La in H. apply andb_prop in H as [Hno Hrest].
  destruct v as [|b v].
  - intros Hseg. apply date_segment_atb_complete in Hseg.
    cbn [app] in Hno. now rewrite Hseg in Hno.
  - apply (IH _ Hrest t eq_refl); [discriminate | assumption].
Qed.

(** ** Reading the captured date *)

Lemma digit_not_hyphen (a : ascii) :
  is_digit a = true -> Ascii.eqb a "-" = false.
Proof.
  intros H. destruct (Ascii.eqb_spec a "-"); [subst a; discriminate | reflexivity].
Qed.

Lemma all_digits_cons (a : ascii) (u : str) :
  all_digits (a :: u) = true -> is_digit a = true /\ all_digits u = true.
Proof. intros H. now apply andb_prop in H. Qed.

(** On a date-shaped text, lines 88 to 90 find three strings of digits,
    so that only [datetime_new] can raise. *)
Lemma version_date_of_shaped (d : str) :
  date_shaped d = true ->
  version_date_of d
  = datetime_new (number (firstn 4 d)) (number (firstn 2 (skipn 5 d)))
                 (number (skipn 8 d)).
Proof.
  intros H.
  destruct (date_shaped_inv _ H) as (y1&y2&y3&y4&m1&m2&d1&d2&->&Dy&Dm&Dd).
  repeat match goal with
         | D : all_digits (_ :: _) = true |- _ =>
             apply all_digits_cons in D as [? D]
         end.
  unfold version_date_of, hyphen.
  repeat (cbn [split];
          first [ rewrite digit_not_hyphen by assumption
                | rewrite Ascii.eqb_refl ]).
  cbn [split obind getitem nth_error int digits_value].
  repeat match goal with
         | D : is_digit _ = true |- _ => rewrite D; clear D
         end.
  reflexivity.
Qed.

(** ** Dates and the clock *)

Lemma datetime_sub_in_range (t days : Z) :
  (0 <= days)%Z -> (timedelta days <= t <= datetime_max)%Z ->
  datetime_sub t (timedelta days) = Returned (t - timedelta days)%Z.
Proof.
  intros Hd [Hlo Hhi]. unfold datetime_sub.
  assert (0 <= timedelta days)%Z by (unfold timedelta, us_per_day; lia).
  destruct (Z.leb_spec 0 (t - timedelta days)); [|lia].
  destruct (Z.leb_spec (t - timedelta days) datetime_max); [|lia].
  reflexivity.
Qed.

Lemma clock_in_range_sub (t days : Z) :
  clock_in_range t -> (0 <= days <= 3 * 365)%Z ->
  datetime_sub t (timedelta days) = Returned (t - timedelta days)%Z.
Proof.
  intros [Hlo Hhi] Hd. apply datetime_sub_in_range; [lia|].
  unfold timedelta, us_per_day in *. lia.
Qed.

(** ** The entry points *)

Section Properties.
Variable format_msg : str -> list str -> str.
Variable get_version_iri : str -> option str.

Ltac run_parse H :=
  unfold check_match, version_date_of, bind, lift, obind, group in *;
  cbn [Nat.sub getitem nth_error] in *;
  repeat match type of H with
         | context [match ?o with Returned _ => _ | Raised _ => _ end] =>
             destruct o; try discriminate H
         end.

(** When the captured text is no date, the exception of lines 88 to 90
    leaves [check_version_iri]. *)
Lemma check_match_raised (d : str) (g : list str) (e : exn) (w : world) :
  version_date_of d = Raised e -> check_match format_msg (d :: g) w = Raised e.
Proof.
  intros H. run_parse H; try (now rewrite H); now injection H as ->.
Qed.

(** Under a clock that stands still, lines 92 to 113 give [verdict]. *)
Lemma check_match_steady (d : str) (g : list str) (vd t : datetime) (n : nat) :
  version_date_of d = Returned vd -> clock_in_range t ->
  value (check_match format_msg (d :: g) (steady t n)) = Returned (verdict format_msg d vd t).
Proof.
  intros H Ht. run_parse H. rewrite H.
  unfold now, steady, verdict, ret; cbn [wall ticks].
  rewrite (clock_in_range_sub _ _ Ht) by lia.
  destruct (vd <? t - timedelta (3 * 365))%Z; [reflexivity|].
  cbn [wall ticks]. rewrite (clock_in_range_sub _ _ Ht) by lia.
  destruct (vd <? t - timedelta (2 * 365))%Z; [reflexivity|].
  cbn [wall ticks]. rewrite (clock_in_range_sub _ _ Ht) by lia.
  destruct (vd <? t - timedelta 365)%Z; reflexivity.
Qed.


Lemma captured_search (s d : str) :
  captured s = Some d <-> Re.search vpat s = Some [d].
Proof.
  unfold captured; split; intros H.
  - destruct (Re.search vpat s) as [g|] eqn:E; [|discriminate].
    destruct (search_inv _ _ E) as (_ & _ & d' & _ & _ & _ & _ & ->).
    now injection H as ->.
  - now rewrite H.
Qed.

Lemma check_version_iri_captured (s d : str) (w : world) :
  captured s = Some d ->
  check_version_iri format_msg s w = check_match format_msg [d] w.
Proof.
  intros H. apply captured_search in H.
  unfold check_version_iri. now rewrite H.
Qed.

(** A clock that stands still makes the count of readings irrelevant. *)
Lemma check_match_steady_indep (g : list str) (t : datetime) (n1 n2 : nat) :
  value (check_match format_msg g (steady t n1))
  = value (check_match format_msg g (steady t n2)).
Proof.
  unfold check_match, bind, lift, now, ret, steady; cbn [wall ticks].
  repeat (cbn [wall ticks value];
          match goal with
          | |- context [match ?o with Returned _ => _ | Raised _ => _ end] =>
              lazymatch o with
              | context [match _ with Returned _ => _ | Raised _ => _ end] =>
                  fail
              | _ => destruct o
              end
          | |- context [if ?b then _ else _] => destruct b
          end); reflexivity.
Qed.

Lemma severity_at_verdict (d : str) (vd t : datetime) :
  has_severity format_msg (verdict format_msg d vd t) (severity_at vd t).
Proof.
  unfold verdict, severity_at, stale.
  destruct (vd <? t - timedelta (3 * 365))%Z; [simpl; eauto|].
  destruct (vd <? t - timedelta (2 * 365))%Z; [simpl; eauto|].
  destruct (vd <? t - timedelta 365)%Z; simpl; eauto.
Qed.

Lemma severity_at_antitone (vd1 vd2 t : datetime) :
  (vd1 <= vd2)%Z -> (rank (severity_at vd2 t) <= rank (severity_at vd1 t))%nat.
Proof.
  intros H. unfold severity_at.
  repeat match goal with
         | |- context [(?a <? ?b)%Z] => destruct (Z.ltb_spec a b)
         end; simpl; lia.
Qed.

Lemma datetime_new_raises (y m d : Z) (e : exn) :
  datetime_new y m d = Raised e -> e = ValueError.
Proof.
  unfold datetime_new.
  repeat match goal with
         | |- context [if ?b then _ else _] => destruct b
         end; congruence.
Qed.

(** Under a clock in range, [check_version_iri] returns, or raises
    [ValueError] because the captured text is no date of the calendar. *)
Lemma check_version_iri_outcome (s : str) (t : datetime) (n : nat) :
  clock_in_range t ->
  (exists r, value (check_version_iri format_msg s (steady t n)) = Returned r)
  \/ (exists d, captured s = Some d
                /\ version_date_of d = Raised ValueError
                /\ check_version_iri format_msg s (steady t n)
                   = Raised ValueError).
Proof.
  intros Ht. unfold check_version_iri.
  destruct (Re.search vpat s) as [g|] eqn:E; [|left; eexists; reflexivity].
  destruct (search_inv _ _ E) as (_ & _ & d & _ & _ & _ & Hd & ->).
  destruct (version_date_of d) as [vd|e] eqn:Ev.
  - left. eexists. exact (check_match_steady d [] vd t n Ev Ht).
  - assert (e = ValueError) as ->.
    { rewrite (version_date_of_shaped _ Hd) in Ev.
      now apply datetime_new_raises in Ev. }
    right. exists d. split; [|split].
    + now apply captured_search.
    + exact Ev.
    + now apply check_match_raised.
Qed.

(** ** The claims *)


(** C2, as amended.  The first [.*] of [vpat] is greedy: in an input
    made of a text without line break, the head of [vpat], a text
    without line break and a date between slashes, where no later
    position of the line starts a date between slashes, that date --
    the last of the line, not the first -- is the one captured and
    classified. *)
Theorem vpat_captures_last_date (pre seg d rest : str) (w : world) :
  line pre -> line seg -> date_shaped d = true -> last_on_line d rest ->
  let s := pre ++ prefix ++ seg ++ slash :: d ++ slash :: rest in
  captured s = Some d
  /\ check_version_iri format_msg s w = check_match format_msg [d] w.
Proof.
  intros Hpre Hseg Hd Hlast s.
  assert (Hc : captured s = Some d).
  { apply captured_search. now apply search_greedy. }
  split; [exact Hc | now apply check_version_iri_captured].
Qed.

(** C3.  The claim is that no exception leaves [check_version_iri].
    On a version IRI whose date is 2024-02-30 the function raises
    [ValueError] in every world, and so do [is_maintained] and
    [big_is_maintained] when they are handed that version IRI. *)
Theorem impossible_date_raises (w : world) :
  let iri := lit "http://purl.obolibrary.org/obo/go/2024-02-30/go.owl" in
  captured iri = Some (lit "2024-02-30")
  /\ version_date_of (lit "2024-02-30") = Raised ValueError
  /\ check_version_iri format_msg iri w = Raised ValueError
  /\ is_maintained format_msg (Some (ontology_of (Some iri))) w
     = Raised ValueError
  /\ big_is_maintained format_msg (fun _ => Some iri) (lit "go.owl") w
     = Raised ValueError.
Proof.
  intros iri.
  assert (Hc : captured iri = Some (lit "2024-02-30")) by reflexivity.
  assert (Hv : version_date_of (lit "2024-02-30") = Raised ValueError)
    by reflexivity.
  assert (Hr : check_version_iri format_msg iri w = Raised ValueError).
  { rewrite (check_version_iri_captured _ _ _ Hc).
    now apply check_match_raised. }
  repeat split; assumption.
Qed.

(** C4.  A string in which [vpat] does not occur gets INFO with the
    message 'version IRI does not have date information', whatever it
    holds. *)
Theorem no_date_information (s : str) (w : world) :
  ~ vpat_occurs s ->
  check_version_iri format_msg s w
  = Returned (format_msg (lit "INFO")
                [lit "version IRI does not have date information"], w).
Proof.
  intros H. apply search_none_iff in H.
  unfold check_version_iri. now rewrite H.
Qed.

(** C5.  [is_maintained] gives INFO 'unable to load ontology' without
    an ontology, INFO 'missing version IRI to check date' for an
    ontology without version IRI, and otherwise what
    [check_version_iri] gives for the text of the version IRI. *)
Theorem is_maintained_cases (w : world) :
  is_maintained format_msg None w
  = Returned (format_msg (lit "INFO") [lit "unable to load ontology"], w)
  /\ (forall o,
        getVersionIRI (getOntologyID o) = None ->
        is_maintained format_msg (Some o) w
        = Returned (format_msg (lit "INFO")
                      [lit "missing version IRI to check date"], w))
  /\ (forall o iri,
        getVersionIRI (getOntologyID o) = Some iri ->
        is_maintained format_msg (Some o) w
        = check_version_iri format_msg (toString iri) w).
Proof.
  unfold is_maintained, orNull.
  repeat split; intros; now rewrite ?H.
Qed.

(** C6.  [big_is_maintained] gives what [check_version_iri] gives for a
    scanned string that is not empty, INFO 'missing version IRI to
    check date' for the empty string, and INFO 'unable to parse
    ontology' when the scanner gives nothing. *)
Theorem big_is_maintained_cases (file : str) (w : world) :
  (forall s, get_version_iri file = Some s -> s <> [] ->
             big_is_maintained format_msg get_version_iri file w
             = check_version_iri format_msg s w)
  /\ (get_version_iri file = Some [] ->
      big_is_maintained format_msg get_version_iri file w
      = Returned (format_msg (lit "INFO")
                    [lit "missing version IRI to check date"], w))
  /\ (get_version_iri file = None ->
      big_is_maintained format_msg get_version_iri file w
      = Returned (format_msg (lit "INFO") [lit "unable to parse ontology"],
                  w)).
Proof.
  unfold big_is_maintained.
  repeat split; [intros s -> Hs | intros -> ..]; try reflexivity.
  destruct s; [congruence | reflexivity].
Qed.




(** C8.  Under a clock that stands still, two calls of
    [check_version_iri] on the same string give the same result,
    however many readings of the clock came before each. *)
Theorem check_version_iri_deterministic
  (s : str) (t : datetime) (n1 n2 : nat) :
  value (check_version_iri format_msg s (steady t n1))
  = value (check_version_iri format_msg s (steady t n2)).
Proof.
  unfold check_version_iri.
  destruct (Re.search vpat s) as [g|]; [|reflexivity].
  apply check_match_steady_indep.
Qed.


(** C10.  Under a clock that stands still, the severity is monotone in
    the age of the parsed date: of two matching version IRIs, the one
    with the earlier date gets a severity at least as high, in the
    order PASS < INFO < WARN < ERROR. *)
Theorem severity_monotone_in_age
  (s1 s2 d1 d2 : str) (vd1 vd2 t : datetime) (n1 n2 : nat) :
  captured s1 = Some d1 -> version_date_of d1 = Returned vd1 ->
  captured s2 = Some d2 -> version_date_of d2 = Returned vd2 ->
  (vd1 <= vd2)%Z -> clock_in_range t ->
  exists r1 r2 v1 v2,
    value (check_version_iri format_msg s1 (steady t n1)) = Returned r1
    /\ value (check_version_iri format_msg s2 (steady t n2)) = Returned r2
    /\ has_severity format_msg r1 v1
    /\ has_severity format_msg r2 v2
    /\ (rank v2 <= rank v1)%nat.
Proof.
  intros Hc1 Hvd1 Hc2 Hvd2 Hle Ht.
  exists (verdict format_msg d1 vd1 t), (verdict format_msg d2 vd2 t),
         (severity_at vd1 t), (severity_at vd2 t).
  rewrite (check_version_iri_captured _ _ _ Hc1), (check_version_iri_captured _ _ _ Hc2).
  rewrite (check_match_steady _ _ _ _ _ Hvd1 Ht), (check_match_steady _ _ _ _ _ Hvd2 Ht).
  repeat split; try apply severity_at_verdict.
  now apply severity_at_antitone.
Qed.

End Properties.

(** ** The claims on examples *)


Lemma leftmost_date_not_captured :
  captured
    (lit "http://purl.obolibrary.org/obo/go/2019-06-01/2024-01-01/go.owl")
  = Some (lit "2024-01-01")
  /\ ~ leftmost_captured
        (lit "http://purl.obolibrary.org/obo/go/2019-06-01/2024-01-01/go.owl").
Proof.
  split; [reflexivity|]. intros H.
  specialize (H (lit "go") (lit "2019-06-01") (lit "2024-01-01/go.owl")
                eq_refl eq_refl eq_refl).
  assert (E : captured
                (lit "http://purl.obolibrary.org/obo/go/2019-06-01/2024-01-01/go.owl")
              = Some (lit "2019-06-01")); [|discriminate E].
  apply H. intros u t E Hu (d & rest & -> & _).
  destruct u as [|a [|b u]]; cbn in E, Hu; [discriminate | | lia].
  injection E as _ E. discriminate.
Qed.

Lemma vpat_captures_last_date_witness :
  captured
    (lit "http://purl.obolibrary.org/obo/go/2019-06-01/2024-01-01/go.owl")
  = Some (lit "2024-01-01").
Proof.
  apply (vpat_captures_last_date join_msg [] (lit "go/2019-06-01")
           (lit "2024-01-01") (lit "go.owl") (steady 0%Z 0)).
  - reflexivity.
  - reflexivity.
  - reflexivity.
  - apply no_later_date_sound. reflexivity.
Defined.

Lemma no_date_information_witness :
  check_version_iri join_msg (lit "http://purl.obolibrary.org/obo/go/go.owl")
    (steady 0%Z 0)
  = Returned (lit "INFO version IRI does not have date information",
              steady 0%Z 0).
Proof.
  apply (no_date_information join_msg
           (lit "http://purl.obolibrary.org/obo/go/go.owl") (steady 0%Z 0)).
  apply search_none_iff. reflexivity.
Defined.

Lemma is_maintained_cases_witness :
  is_maintained join_msg (Some (ontology_of None)) (steady 0%Z 0)
  = Returned (lit "INFO missing version IRI to check date", steady 0%Z 0)
  /\ is_maintained join_msg (Some (ontology_of (Some sample_iri))) (steady 0%Z 0)
     = check_version_iri join_msg sample_iri (steady 0%Z 0).
Proof.
  split.
  - apply (proj1 (proj2 (is_maintained_cases join_msg (steady 0%Z 0)))).
    reflexivity.
  - apply (proj2 (proj2 (is_maintained_cases join_msg (steady 0%Z 0)))
             (ontology_of (Some sample_iri)) {| toString := sample_iri |}).
    reflexivity.
Defined.

Lemma big_is_maintained_cases_witness :
  big_is_maintained join_msg scan_sample (lit "go.owl") (steady 0%Z 0)
  = check_version_iri join_msg sample_iri (steady 0%Z 0)
  /\ big_is_maintained join_msg scan_sample (lit "x") (steady 0%Z 0)
     = Returned (lit "INFO missing version IRI to check date", steady 0%Z 0)
  /\ big_is_maintained join_msg scan_sample [] (steady 0%Z 0)
     = Returned (lit "INFO unable to parse ontology", steady 0%Z 0).
Proof.
  split; [|split].
  - apply (proj1 (big_is_maintained_cases join_msg scan_sample
                    (lit "go.owl") (steady 0%Z 0))).
    + reflexivity.
    + discriminate.
  - apply (proj1 (proj2 (big_is_maintained_cases join_msg scan_sample
                           (lit "x") (steady 0%Z 0)))).
    reflexivity.
  - apply (proj2 (proj2 (big_is_maintained_cases join_msg scan_sample
                           [] (steady 0%Z 0)))).
    reflexivity.
Defined.



Lemma severity_monotone_in_age_witness :
  exists r1 r2 v1 v2,
    value (check_version_iri join_msg sample_iri
             (steady (midnight 2024 6 15) 0)) = Returned r1
    /\ value (check_version_iri join_msg
                (lit "http://purl.obolibrary.org/obo/go/2023-09-01/go.owl")
                (steady (midnight 2024 6 15) 3)) = Returned r2
    /\ has_severity join_msg r1 v1
    /\ has_severity join_msg r2 v2
    /\ (rank v2 <= rank v1)%nat.
Proof.
  apply (severity_monotone_in_age join_msg sample_iri
           (lit "http://purl.obolibrary.org/obo/go/2023-09-01/go.owl")
           (lit "2019-06-01") (lit "2023-09-01")
           (midnight 2019 6 1) (midnight 2023 9 1) (midnight 2024 6 15) 0 3);
    try reflexivity.
  - vm_compute. discriminate.
  - split; vm_compute; discriminate.
Defined.

(** The thresholds at their edge: a date exactly 1095 days before a
    reading at midnight is not over three years old; twelve hours later
    it is. *)
Example three_years_to_the_day :
  (ymd2ord 2024 6 15 - ymd2ord 2021 6 16 = 1095)%Z
  /\ value (check_version_iri join_msg
              (lit "http://purl.obolibrary.org/obo/go/2021-06-16/go.owl")
              (steady (midnight 2024 6 15) 0))
     = Returned
         (lit "WARN last version (2021-06-16) is over two year(s) old").
Proof. split; reflexivity. Qed.

Example three_years_and_half_a_day :
  value (check_version_iri join_msg
           (lit "http://purl.obolibrary.org/obo/go/2021-06-16/go.owl")
           (steady (midnight 2024 6 15 + 12 * 3600 * 1000000)%Z 0))
  = Returned
      (lit "ERROR last version (2021-06-16) is over three year(s) old").
Proof. reflexivity. Qed.

(** The example of the specification, read in the middle of 2024. *)
Example go_2019_in_2024 :
  value (check_version_iri join_msg sample_iri
           (steady (midnight 2024 6 15) 0))
  = Returned
      (lit "ERROR last version (2019-06-01) is over three year(s) old").
Proof. reflexivity. Qed.

(** A line break in the middle segment stops [.*]: no match. *)
Example line_break_in_segment :
  Re.search vpat
    (lit "http://purl.obolibrary.org/obo/g" ++ newline
       :: lit "o/2019-06-01/go.owl")
  = None.
Proof. reflexivity. Qed.

(** Year 0000 and month 13 are no dates either. *)
Example year_zero_raises (w : world) :
  check_version_iri join_msg
    (lit "http://purl.obolibrary.org/obo/go/0000-01-01/go.owl") w
  = Raised ValueError.
Proof. reflexivity. Qed.

Example month_thirteen_raises (w : world) :
  check_version_iri join_msg
    (lit "http://purl.obolibrary.org/obo/go/2024-13-01/go.owl") w
  = Raised ValueError.
Proof. reflexivity. Qed.

(** ** Further properties of the entry points *)

Lemma starts_with_app (p v : str) : starts_with p (p ++ v) = true.
Proof.
  induction p as [|a p IH]; simpl; [reflexivity|].
  now rewrite Ascii.eqb_refl, IH.
Qed.

Lemma occursb_complete (p s : str) : occurs p s -> occursb p s = true.
Proof.
  intros (u & v & ->). induction u as [|a u IH].
  - cbn [app]. pose proof (starts_with_app p v) as H.
    destruct (p ++ v); cbn [occursb]; now rewrite H.
  - cbn [app occursb]. rewrite IH. apply orb_true_r.
Qed.

Lemma has_date_segment_at (v : str) :
  has_date_segment v = false -> date_segment_atb v = false.
Proof.
  destruct v; simpl; intros H; [reflexivity|].
  now apply orb_false_elim in H.
Qed.

Lemma has_date_segment_app (u v : str) :
  has_date_segment (u ++ v) = false -> has_date_segment v = false.
Proof.
  induction u as [|a u IH]; [trivial|].
  cbn [app has_date_segment]. intros H.
  apply orb_false_elim in H as [_ H]. now apply IH.
Qed.

Lemma no_date_segment_from_sound (i : nat) (s : str) :
  has_date_segment (skipn i s) = false -> no_date_segment_from i s.
Proof.
  intros H u v -> Hi Hseg.
  rewrite skipn_app in H.
  apply has_date_segment_app, has_date_segment_at in H.
  replace (i - List.length u)%nat with 0%nat in H by lia.
  cbn [skipn] in H.
  apply date_segment_atb_complete in Hseg. congruence.
Qed.

(** *** The calendar *)

Lemma days_before_year_succ (y : Z) :
  days_before_year (y + 1)
  = (days_before_year y + 365 + if is_leap y then 1 else 0)%Z.
Proof.
  unfold days_before_year, is_leap.
  replace (y + 1 - 1)%Z with y by lia.
  destruct (Z.eqb_spec (y mod 4) 0); destruct (Z.eqb_spec (y mod 100) 0);
    destruct (Z.eqb_spec (y mod 400) 0); cbn [andb orb negb];
    Z.div_mod_to_equations; lia.
Qed.

Lemma days_before_year_mono (y1 y2 : Z) :
  (y1 <= y2)%Z -> (days_before_year y1 <= days_before_year y2)%Z.
Proof.
  unfold days_before_year. intros H.
  Z.div_mod_to_equations. lia.
Qed.

Lemma month_cases (m : Z) :
  (1 <= m <= 12)%Z ->
  (m = 1 \/ m = 2 \/ m = 3 \/ m = 4 \/ m = 5 \/ m = 6 \/ m = 7 \/ m = 8
   \/ m = 9 \/ m = 10 \/ m = 11 \/ m = 12)%Z.
Proof. lia. Qed.

Ltac each_month H :=
  apply month_cases in H;
  repeat (destruct H as [H | H]); subst.

(** A month ends where the next one starts, and the last one where
    the year ends. *)
Lemma days_before_month_next (y m1 m2 : Z) :
  (1 <= m1 <= 12)%Z -> (1 <= m2 <= 12)%Z -> (m1 < m2)%Z ->
  (days_before_month y m1 + days_in_month y m1 <= days_before_month y m2)%Z.
Proof.
  intros H1 H2 Hlt. unfold days_before_month, days_in_month.
  destruct (is_leap y); each_month H1; each_month H2;
    try lia; vm_compute; discriminate.
Qed.

Lemma days_before_month_end (y m : Z) :
  (1 <= m <= 12)%Z ->
  (0 <= days_before_month y m
   /\ days_before_month y m + days_in_month y m
      <= 365 + if is_leap y then 1 else 0)%Z.
Proof.
  intros H. unfold days_before_month, days_in_month.
  destruct (is_leap y); each_month H; vm_compute; split; discriminate.
Qed.

Lemma datetime_new_inv (y m d : Z) (v : datetime) :
  datetime_new y m d = Returned v ->
  (MINYEAR <= y <= MAXYEAR)%Z /\ (1 <= m <= 12)%Z
  /\ (1 <= d <= days_in_month y m)%Z
  /\ v = ((ymd2ord y m d - 1) * us_per_day)%Z.
Proof.
  unfold datetime_new.
  destruct (Z.leb_spec MINYEAR y); destruct (Z.leb_spec y MAXYEAR);
    cbn [andb negb]; try discriminate.
  destruct (Z.leb_spec 1 m); destruct (Z.leb_spec m 12);
    cbn [andb negb]; try discriminate.
  destruct (Z.leb_spec 1 d); destruct (Z.leb_spec d (days_in_month y m));
    cbn [andb negb]; try discriminate.
  intros E; injection E as <-. repeat split; assumption.
Qed.

(** [datetime.datetime(y, m, d)] grows with the calendar. *)
Lemma datetime_new_mono (y1 m1 d1 y2 m2 d2 : Z) (v1 v2 : datetime) :
  datetime_new y1 m1 d1 = Returned v1 ->
  datetime_new y2 m2 d2 = Returned v2 ->
  ymd_le (y1, m1, d1) (y2, m2, d2) ->
  (v1 <= v2)%Z.
Proof.
  intros E1 E2 Hle.
  apply datetime_new_inv in E1 as (Hy1 & Hm1 & Hd1 & ->).
  apply datetime_new_inv in E2 as (Hy2 & Hm2 & Hd2 & ->).
  assert (ymd2ord y1 m1 d1 <= ymd2ord y2 m2 d2)%Z;
    [|unfold us_per_day; lia].
  unfold ymd2ord. cbn [ymd_le] in Hle.
  destruct Hle as [Hy | [-> [Hm | [-> Hd]]]].
  - pose proof (days_before_month_end y1 m1 Hm1) as [_ He].
    pose proof (days_before_month_end y2 m2 Hm2) as [H0 _].
    pose proof (days_before_year_succ y1) as Hs.
    pose proof (days_before_year_mono (y1 + 1) y2 ltac:(lia)).
    lia.
  - pose proof (days_before_month_next y2 m1 m2 Hm1 Hm2 Hm). lia.
  - lia.
Qed.

(** *** Text after a line break *)

Section AfterLineBreak.
Context {R : Type}.
Variable z : str.
Hypothesis z_starts_new_line : exists x, z = newline :: x.

(** [k] on a text followed by [z] is [k'] on the text alone. *)
Let agree (k k' : str -> option R) : Prop :=
  forall t, k (t ++ z) = k' t.

Lemma m_lit_ext (p s : str) (k k' : str -> option R) :
  line p -> agree k k' -> Re.m_lit p (s ++ z) k = Re.m_lit p s k'.
Proof.
  intros Hp Hk. revert s Hp; induction p as [|a p IH]; intros s Hp.
  - apply Hk.
  - apply (line_app [a] p) in Hp as [Ha Hp].
    unfold line in Ha; cbn [forallb Re.in_class] in Ha.
    rewrite andb_true_r in Ha.
    destruct s as [|b s]; cbn [app Re.m_lit].
    + destruct z_starts_new_line as (x & ->). cbn [Re.m_lit].
      now rewrite (proj1 (negb_true_iff _) Ha).
    + destruct (Ascii.eqb a b); [now apply IH | reflexivity].
Qed.

Lemma m_rep_ext (n : nat) (c : Re.cclass) (s : str) (k k' : str -> option R) :
  Re.in_class c newline = false -> agree k k' ->
  Re.m_rep n c (s ++ z) k = Re.m_rep n c s k'.
Proof.
  intros Hc Hk. revert s; induction n as [|n IH]; intros s.
  - apply Hk.
  - destruct s as [|b s]; cbn [app Re.m_rep].
    + destruct z_starts_new_line as (x & ->). cbn [Re.m_rep].
      now rewrite Hc.
    + destruct (Re.in_class c b); [apply IH | reflexivity].
Qed.

Lemma m_star_ext (c : Re.cclass) (s : str) (k k' : str -> option R) :
  Re.in_class c newline = false -> agree k k' ->
  Re.m_star c (s ++ z) k = Re.m_star c s k'.
Proof.
  intros Hc Hk. induction s as [|b s IH].
  - cbn [app Re.m_star]. rewrite <- (Hk []). cbn [app].
    destruct z_starts_new_line as (x & ->). cbn [Re.m_star].
    now rewrite Hc.
  - cbn [app Re.m_star]. rewrite IH, <- (Hk (b :: s)). reflexivity.
Qed.

End AfterLineBreak.

Lemma firstn_length_ext (s t z : str) :
  firstn (List.length (s ++ z) - List.length (t ++ z)) (s ++ z)
  = firstn (List.length s - List.length t) s.
Proof.
  rewrite !length_app.
  replace (List.length s + List.length z
           - (List.length t + List.length z))%nat
    with (List.length s - List.length t)%nat by lia.
  rewrite firstn_app.
  replace (List.length s - List.length t - List.length s)%nat with 0%nat
    by lia.
  cbn [firstn]. apply app_nil_r.
Qed.

(** A match at the head of [s] does not look past a line break that
    follows [s]. *)
Lemma m_atoms_vpat_ext (s x : str) :
  Re.m_atoms vpat (s ++ newline :: x) = Re.m_atoms vpat s.
Proof.
  assert (Hz : exists x', newline :: x = newline :: x') by eauto.
  rewrite !m_atoms_vpat.
  apply m_lit_ext; [exact Hz | reflexivity |]. intros s1.
  apply m_star_ext; [exact Hz | reflexivity |]. intros s2.
  unfold vpat_tail; cbn [tl vpat Re.m_atoms Re.m_simple Re.m_seq].
  apply m_lit_ext; [exact Hz | reflexivity |]. intros s3.
  apply m_rep_ext; [exact Hz | reflexivity |]. intros s4.
  apply m_lit_ext; [exact Hz | reflexivity |]. intros s5.
  apply m_rep_ext; [exact Hz | reflexivity |]. intros s6.
  apply m_lit_ext; [exact Hz | reflexivity |]. intros s7.
  apply m_rep_ext; [exact Hz | reflexivity |]. intros s8.
  rewrite firstn_length_ext. f_equal.
  apply m_lit_ext; [exact Hz | reflexivity |]. intros s9.
  now rewrite !(m_star_const Re.Dot _ _ []).
Qed.

(** [re.search] goes line by line: the first line with a match gives
    the result. *)
Lemma search_lines (s x : str) :
  Re.search vpat (s ++ newline :: x)
  = match Re.search vpat s with
    | Some g => Some g
    | None => Re.search vpat x
    end.
Proof.
  induction s as [|a s IH].
  - reflexivity.
  - change ((a :: s) ++ newline :: x) with (a :: (s ++ newline :: x)).
    cbn [Re.search].
    rewrite <- (m_atoms_vpat_ext (a :: s) x). cbn [app].
    destruct (Re.m_atoms vpat (a :: s ++ newline :: x)); [reflexivity|].
    apply IH.
Qed.

(** *** Dates and slashes *)

Lemma captured_shaped (s d : str) :
  captured s = Some d -> date_shaped d = true.
Proof.
  intros H. apply captured_search in H.
  destruct (search_inv _ _ H) as (_ & _ & d' & _ & _ & _ & Hd & Eg).
  now injection Eg as <-.
Qed.

Lemma date_shaped_no_slash (d : str) :
  date_shaped d = true -> ~ In slash d.
Proof.
  intros H.
  destruct (date_shaped_inv _ H) as (y1&y2&y3&y4&m1&m2&d1&d2&->&Dy&Dm&Dd).
  repeat match goal with
         | D : all_digits (_ :: _) = true |- _ =>
             apply all_digits_cons in D as [? D]
         end.
  cbn [In]. intros Hin.
  repeat (destruct Hin as [Hin | Hin]; [subst; discriminate|]).
  exact Hin.
Qed.

(** A character that stands once in a list splits it in one way. *)
Lemma app_unique (a : ascii) (u r v x : str) :
  ~ In a u -> ~ In a r -> u ++ a :: r = v ++ a :: x -> u = v /\ r = x.
Proof.
  revert v; induction u as [|c u IH]; intros v Hu Hr E.
  - destruct v as [|b v]; cbn [app] in E; inversion E; subst.
    + now split.
    + exfalso; apply Hr. apply in_elt.
  - destruct v as [|b v]; cbn [app] in E; inversion E; subst.
    + exfalso; apply Hu. now left.
    + destruct (IH v) as [-> ->]; try assumption; [|now split].
      intros Hin; apply Hu. now right.
Qed.

(** After a date that is followed by a slash and a text without slash,
    no other date starts. *)
Lemma last_on_line_no_slash (d rest : str) :
  date_shaped d = true -> ~ In slash rest -> last_on_line d rest.
Proof.
  intros Hd Hrest v t E Hv Lv (d' & rest' & -> & Hd').
  destruct v as [|a v]; [congruence|].
  cbn [app] in E; injection E as _ E.
  destruct (app_unique slash d rest v (d' ++ slash :: rest')) as [_ Er];
    [now apply date_shaped_no_slash | assumption | assumption |].
  apply Hrest. rewrite Er. apply in_elt.
Qed.

Section More.
Variable format_msg : str -> list str -> str.
Variable get_version_iri : str -> option str.

(** In a world whose clock is in range, lines 92 to 113 test each
    threshold against a reading of its own. *)
Lemma check_match_moving (d : str) (g : list str) (vd : datetime) (w : world) :
  version_date_of d = Returned vd -> clock_ok w ->
  check_match format_msg (d :: g) w
  = Returned
      (verdict3 format_msg d vd (wall w (ticks w)) (wall w (S (ticks w)))
         (wall w (S (S (ticks w)))),
       World (wall w)
         (ticks w
          + readings vd (wall w (ticks w)) (wall w (S (ticks w))))).
Proof.
  intros H Hw.
  unfold check_match, version_date_of, bind, lift, obind, group in *.
  cbn [Nat.sub getitem nth_error] in *.
  repeat match type of H with
         | context [match ?o with Returned _ => _ | Raised _ => _ end] =>
             destruct o; try discriminate H
         end.
  rewrite H.
  unfold now, verdict3, readings, ret; cbn [wall ticks].
  rewrite (clock_in_range_sub _ _ (Hw _)) by lia.
  destruct (vd <? _ - timedelta (3 * 365))%Z;
    [now rewrite Nat.add_1_r|].
  cbn [wall ticks]. rewrite (clock_in_range_sub _ _ (Hw _)) by lia.
  destruct (vd <? _ - timedelta (2 * 365))%Z;
    [now replace (ticks w + 2)%nat with (S (S (ticks w))) by lia|].
  cbn [wall ticks]. rewrite (clock_in_range_sub _ _ (Hw _)) by lia.
  replace (ticks w + 3)%nat with (S (S (S (ticks w)))) by lia.
  destruct (vd <? _ - timedelta 365)%Z; reflexivity.
Qed.

(** X1.  The clock is read anew for each threshold: a matching version
    IRI with a date of the calendar is compared with the first reading
    for ERROR, with the second for WARN and with the third for INFO,
    and a reading is made only when the test before it failed. *)
Theorem thresholds_read_the_clock_anew
  (s date : str) (vd : datetime) (w : world) :
  captured s = Some date ->
  version_date_of date = Returned vd ->
  clock_ok w ->
  check_version_iri format_msg s w
  = Returned
      (verdict3 format_msg date vd (wall w (ticks w)) (wall w (S (ticks w)))
         (wall w (S (S (ticks w)))),
       World (wall w)
         (ticks w
          + readings vd (wall w (ticks w)) (wall w (S (ticks w))))).
Proof.
  intros Hc Hvd Hw. apply captured_search in Hc.
  unfold check_version_iri. rewrite Hc.
  now apply check_match_moving.
Qed.

(** X2.  With a clock in range, [check_version_iri] raises exactly when
    [vpat] captured digits that [datetime.datetime] rejects as year,
    month and day, and what it raises is [ValueError]. *)
Theorem raises_iff_no_calendar_date (s : str) (w : world) (e : exn) :
  clock_ok w ->
  check_version_iri format_msg s w = Raised e
  <-> e = ValueError
      /\ exists d, captured s = Some d
                   /\ (let '(y, m, dd) := ymd_of d in datetime_new y m dd)
                      = Raised ValueError.
Proof.
  intros Hw. unfold check_version_iri, ymd_of. split.
  - destruct (Re.search vpat s) as [g|] eqn:E; [|discriminate].
    destruct (search_inv _ _ E) as (_ & _ & d & _ & _ & _ & Hd & ->).
    pose proof (version_date_of_shaped _ Hd) as Hv.
    destruct (version_date_of d) as [vd|e'] eqn:Ev.
    + intros H. exfalso.
      generalize (eq_trans (eq_sym H) (check_match_moving d [] vd w Ev Hw)).
      discriminate.
    + symmetry in Hv. pose proof (datetime_new_raises _ _ _ _ Hv) as ->.
      intros H.
      generalize (eq_trans (eq_sym H)
                    (check_match_raised format_msg d [] ValueError w Ev)).
      intros Ee; injection Ee as ->. split; [reflexivity|].
      exists d. split; [now apply captured_search | assumption].
  - intros (-> & d & Hc & Hr).
    apply captured_search in Hc. rewrite Hc.
    destruct (search_inv _ _ Hc) as (_ & _ & d' & _ & _ & _ & Hd & Eg).
    injection Eg as <-.
    apply check_match_raised. now rewrite (version_date_of_shaped _ Hd).
Qed.

(** X3.  What [vpat] captures is date-shaped and stands in the string
    between two slashes, after the head of [vpat] and a text without
    line break. *)
Theorem capture_stands_in_the_string (s d : str) :
  captured s = Some d ->
  date_shaped d = true
  /\ List.length d = 10
  /\ exists pre seg rest,
       s = pre ++ prefix ++ seg ++ slash :: d ++ slash :: rest /\ line seg.
Proof.
  intros H. apply captured_search in H.
  destruct (search_inv _ _ H) as (pre & seg & d' & rest & Es & Hseg & Hd & Eg).
  injection Eg as <-.
  split; [assumption|]. split; [now apply date_shaped_length|].
  now exists pre, seg, rest.
Qed.

(** X4.  A string that does not hold the head of [vpat],
    [http://purl.obolibrary.org/obo/], gets INFO 'version IRI does not
    have date information', whatever dates it holds. *)
Theorem head_of_vpat_needed (s : str) (w : world) :
  ~ occurs prefix s ->
  check_version_iri format_msg s w
  = Returned (no_date_msg format_msg, w).
Proof.
  intros H. unfold check_version_iri.
  assert (E : Re.search vpat s = None).
  { apply search_none_iff. intros (pre & seg & d & rest & -> & _).
    apply H. now exists pre, (seg ++ slash :: d ++ slash :: rest). }
  now rewrite E.
Qed.

(** X5.  A date counts only between two slashes that follow the head of
    [vpat]: a string in which no date between slashes starts at index
    31 or later gets INFO 'version IRI does not have date information'. *)
Theorem date_segment_needed (s : str) (w : world) :
  no_date_segment_from (List.length prefix) s ->
  check_version_iri format_msg s w
  = Returned (no_date_msg format_msg, w).
Proof.
  intros H. unfold check_version_iri.
  assert (E : Re.search vpat s = None).
  { apply search_none_iff. intros (pre & seg & d & rest & -> & _ & Hd).
    apply (H (pre ++ prefix ++ seg) (slash :: d ++ slash :: rest)).
    - now rewrite <- !app_assoc.
    - rewrite !length_app. lia.
    - now exists d, rest. }
  now rewrite E.
Qed.

(** X6.  The two entry points agree: for an ontology and a file whose
    scan gives the text of the ontology's version IRI, or the empty
    string when it has none, [is_maintained] and [big_is_maintained]
    give the same result -- unless the text of the version IRI is
    itself empty, which [is_maintained] reports as an IRI without date
    and [big_is_maintained] as a missing IRI. *)
Theorem entry_points_agree (o : OWLOntology) (file : str) (w : world) :
  (forall iri,
      getVersionIRI (getOntologyID o) = Some iri ->
      get_version_iri file = Some (toString iri) ->
      toString iri <> [] ->
      is_maintained format_msg (Some o) w
      = big_is_maintained format_msg get_version_iri file w)
  /\ (getVersionIRI (getOntologyID o) = None ->
      get_version_iri file = Some [] ->
      is_maintained format_msg (Some o) w
      = big_is_maintained format_msg get_version_iri file w)
  /\ (forall iri,
        getVersionIRI (getOntologyID o) = Some iri ->
        get_version_iri file = Some (toString iri) ->
        toString iri = [] ->
        is_maintained format_msg (Some o) w
        = Returned (no_date_msg format_msg, w)
        /\ big_is_maintained format_msg get_version_iri file w
           = Returned (format_msg (lit "INFO")
                         [lit "missing version IRI to check date"], w)).
Proof.
  unfold is_maintained, big_is_maintained, orNull.
  split; [|split].
  - intros iri -> -> Hne. destruct (toString iri); [congruence | reflexivity].
  - now intros -> ->.
  - intros iri -> -> ->. split; reflexivity.
Qed.

Lemma captured_none (s : str) :
  captured s = None -> Re.search vpat s = None.
Proof.
  intros H. destruct (Re.search vpat s) as [g|] eqn:E; [|reflexivity].
  destruct (search_inv _ _ E) as (_ & _ & d & _ & _ & _ & _ & ->).
  apply captured_search in E. congruence.
Qed.

(** X7.  The severity follows the calendar: under a clock that stands
    still, of two matching version IRIs whose digits are dates of the
    calendar, the one whose year, month and day come first never gets
    the lower severity. *)
Theorem severity_follows_the_calendar
  (s1 s2 d1 d2 : str) (vd1 vd2 t : datetime) (n1 n2 : nat) :
  captured s1 = Some d1 -> version_date_of d1 = Returned vd1 ->
  captured s2 = Some d2 -> version_date_of d2 = Returned vd2 ->
  ymd_le (ymd_of d1) (ymd_of d2) -> clock_in_range t ->
  (vd1 <= vd2)%Z
  /\ exists r1 r2 v1 v2,
       value (check_version_iri format_msg s1 (steady t n1)) = Returned r1
       /\ value (check_version_iri format_msg s2 (steady t n2)) = Returned r2
       /\ has_severity format_msg r1 v1
       /\ has_severity format_msg r2 v2
       /\ (rank v2 <= rank v1)%nat.
Proof.
  intros Hc1 Hvd1 Hc2 Hvd2 Hle Ht.
  assert (Hord : (vd1 <= vd2)%Z).
  { pose proof (captured_shaped _ _ Hc1) as Hs1.
    pose proof (captured_shaped _ _ Hc2) as Hs2.
    rewrite (version_date_of_shaped _ Hs1) in Hvd1.
    rewrite (version_date_of_shaped _ Hs2) in Hvd2.
    exact (datetime_new_mono _ _ _ _ _ _ _ _ Hvd1 Hvd2 Hle). }
  split; [exact Hord|].
  exists (verdict format_msg d1 vd1 t), (verdict format_msg d2 vd2 t),
         (severity_at vd1 t), (severity_at vd2 t).
  rewrite (check_version_iri_captured format_msg _ _ _ Hc1).
  rewrite (check_version_iri_captured format_msg _ _ _ Hc2).
  rewrite (check_match_steady format_msg _ _ _ _ _ Hvd1 Ht).
  rewrite (check_match_steady format_msg _ _ _ _ _ Hvd2 Ht).
  repeat split; try apply severity_at_verdict.
  now apply severity_at_antitone.
Qed.

(** X8.  The search goes line by line: when the text before a line
    break holds a match, what follows the line break is ignored, and
    when it holds none, the result is that of the text after the line
    break. *)
Theorem line_break_ends_the_search (s x : str) (w : world) :
  check_version_iri format_msg (s ++ newline :: x) w
  = match captured s with
    | Some _ => check_version_iri format_msg s w
    | None => check_version_iri format_msg x w
    end.
Proof.
  unfold check_version_iri. rewrite search_lines.
  destruct (captured s) as [d|] eqn:Hc.
  - apply captured_search in Hc. now rewrite Hc.
  - apply captured_none in Hc. now rewrite Hc.
Qed.

(** X9.  Of a version IRI in its usual form -- the head of [vpat], a
    path, a date between slashes and a file name without slash -- only
    the date counts: two such strings with the same date get the same
    result, whatever stands before the head, in the path and in the
    file name. *)
Theorem result_depends_on_the_date_alone
  (pre1 seg1 rest1 pre2 seg2 rest2 d : str) (w : world) :
  line pre1 -> line seg1 -> ~ In slash rest1 ->
  line pre2 -> line seg2 -> ~ In slash rest2 ->
  date_shaped d = true ->
  let s1 := pre1 ++ prefix ++ seg1 ++ slash :: d ++ slash :: rest1 in
  let s2 := pre2 ++ prefix ++ seg2 ++ slash :: d ++ slash :: rest2 in
  captured s1 = Some d /\ captured s2 = Some d
  /\ check_version_iri format_msg s1 w = check_version_iri format_msg s2 w.
Proof.
  intros Hp1 Hs1 Hr1 Hp2 Hs2 Hr2 Hd s1 s2.
  assert (E1 : Re.search vpat s1 = Some [d]).
  { apply search_greedy; try assumption. now apply last_on_line_no_slash. }
  assert (E2 : Re.search vpat s2 = Some [d]).
  { apply search_greedy; try assumption. now apply last_on_line_no_slash. }
  split; [now apply captured_search|]. split; [now apply captured_search|].
  unfold check_version_iri. now rewrite E1, E2.
Qed.

End More.

(** ** The further properties on examples *)

Lemma clock_ok_steady (t : datetime) (n : nat) :
  clock_in_range t -> clock_ok (steady t n).
Proof. intros H k. exact H. Qed.

Lemma clock_in_range_mid_2024 : clock_in_range (midnight 2024 6 15).
Proof. split; vm_compute; discriminate. Qed.

Lemma thresholds_read_the_clock_anew_witness :
  check_version_iri join_msg
    (lit "http://purl.obolibrary.org/obo/go/2021-06-16/go.owl")
    (ticking (midnight 2024 6 15) us_per_day)
  = Returned
      (lit "WARN last version (2021-06-16) is over two year(s) old",
       World (wall (ticking (midnight 2024 6 15) us_per_day)) 2).
Proof.
  etransitivity.
  - apply (thresholds_read_the_clock_anew join_msg
             (lit "http://purl.obolibrary.org/obo/go/2021-06-16/go.owl")
             (lit "2021-06-16") (midnight 2021 6 16)
             (ticking (midnight 2024 6 15) us_per_day)).
    + reflexivity.
    + reflexivity.
    + intros [|[|n]]; split; vm_compute; discriminate.
  - apply f_equal, f_equal2; [|apply f_equal]; vm_compute; reflexivity.
Defined.

Lemma raises_iff_no_calendar_date_witness :
  check_version_iri join_msg
    (lit "http://purl.obolibrary.org/obo/go/2024-02-30/go.owl")
    (steady (midnight 2024 6 15) 0)
  = Raised ValueError.
Proof.
  apply (raises_iff_no_calendar_date join_msg
           (lit "http://purl.obolibrary.org/obo/go/2024-02-30/go.owl")
           (steady (midnight 2024 6 15) 0) ValueError).
  - apply clock_ok_steady, clock_in_range_mid_2024.
  - split; [reflexivity|]. exists (lit "2024-02-30"). split; reflexivity.
Defined.

Lemma capture_stands_in_the_string_witness :
  date_shaped (lit "2019-06-01") = true
  /\ List.length (lit "2019-06-01") = 10
  /\ exists pre seg rest,
       sample_iri
       = pre ++ prefix ++ seg ++ slash :: lit "2019-06-01" ++ slash :: rest
       /\ line seg.
Proof.
  apply (capture_stands_in_the_string sample_iri (lit "2019-06-01")).
  reflexivity.
Defined.

Lemma head_of_vpat_needed_witness :
  check_version_iri join_msg
    (lit "https://purl.obolibrary.org/obo/go/2019-06-01/go.owl")
    (steady 0%Z 0)
  = Returned (lit "INFO version IRI does not have date information",
              steady 0%Z 0).
Proof.
  apply (head_of_vpat_needed join_msg
           (lit "https://purl.obolibrary.org/obo/go/2019-06-01/go.owl")
           (steady 0%Z 0)).
  intros H. apply occursb_complete in H. discriminate H.
Defined.

Lemma date_segment_needed_witness :
  check_version_iri join_msg
    (lit "http://purl.obolibrary.org/obo/2019-06-01/go.owl") (steady 0%Z 0)
  = Returned (lit "INFO version IRI does not have date information",
              steady 0%Z 0).
Proof.
  apply (date_segment_needed join_msg
           (lit "http://purl.obolibrary.org/obo/2019-06-01/go.owl")
           (steady 0%Z 0)).
  apply no_date_segment_from_sound. reflexivity.
Defined.

Lemma entry_points_agree_witness :
  is_maintained join_msg (Some (ontology_of (Some sample_iri))) (steady 0%Z 0)
  = big_is_maintained join_msg scan_sample (lit "go.owl") (steady 0%Z 0).
Proof.
  apply (proj1 (entry_points_agree join_msg scan_sample
                  (ontology_of (Some sample_iri)) (lit "go.owl")
                  (steady 0%Z 0))
           {| toString := sample_iri |}).
  - reflexivity.
  - reflexivity.
  - discriminate.
Defined.

Lemma severity_follows_the_calendar_witness :
  (midnight 2019 6 1 <= midnight 2023 9 1)%Z
  /\ exists r1 r2 v1 v2,
       value (check_version_iri join_msg sample_iri
                (steady (midnight 2024 6 15) 0)) = Returned r1
       /\ value (check_version_iri join_msg
                   (lit "http://purl.obolibrary.org/obo/go/2023-09-01/go.owl")
                   (steady (midnight 2024 6 15) 1)) = Returned r2
       /\ has_severity join_msg r1 v1
       /\ has_severity join_msg r2 v2
       /\ (rank v2 <= rank v1)%nat.
Proof.
  apply (severity_follows_the_calendar join_msg sample_iri
           (lit "http://purl.obolibrary.org/obo/go/2023-09-01/go.owl")
           (lit "2019-06-01") (lit "2023-09-01")
           (midnight 2019 6 1) (midnight 2023 9 1) (midnight 2024 6 15) 0 1).
  - reflexivity.
  - reflexivity.
  - reflexivity.
  - reflexivity.
  - left. vm_compute. reflexivity.
  - apply clock_in_range_mid_2024.
Defined.

Lemma result_depends_on_the_date_alone_witness :
  check_version_iri join_msg
    (lit "http://purl.obolibrary.org/obo/go/releases/2019-06-01/go.owl")
    (steady (midnight 2024 6 15) 0)
  = check_version_iri join_msg
      (lit "see http://purl.obolibrary.org/obo/chebi/2019-06-01/chebi.obo")
      (steady (midnight 2024 6 15) 0).
Proof.
  apply (result_depends_on_the_date_alone join_msg
           [] (lit "go/releases") (lit "go.owl")
           (lit "see ") (lit "chebi") (lit "chebi.obo")
           (lit "2019-06-01") (steady (midnight 2024 6 15) 0)).
  - reflexivity.
  - reflexivity.
  - cbn [In lit list_ascii_of_string]. intros H.
    repeat (destruct H as [H | H]; [discriminate H|]). exact H.
  - reflexivity.
  - reflexivity.
  - cbn [In lit list_ascii_of_string]. intros H.
    repeat (destruct H as [H | H]; [discriminate H|]). exact H.
  - reflexivity.
Defined.
